(** * Weekly production plan for machines A and B: the model of [main.py]

    [main.py] builds a Pyomo [ConcreteModel] for nine planned weeks of one
    production line shared by two machine types, hands it to GLPK and prints
    the cost and the per-week values.  This file embeds the script:

    - the decision variables, their domains and index sets;
    - the expression trees and the [ConstraintList] the script fills, built
      by the same sequence of [add] calls, in a state and error monad;
    - the objective [totalCost] with sense [minimize];
    - the feasible set and the optima of the built model;
    - the part of the script after the solver call, over an arbitrary solver.

    Number model.  Python [int]s are [Z]; Python [float]s are the binary64
    floats of the kernel.  A product the script computes before it builds a
    constraint ([0.8*consA[i]]) is the float product, and the constraint
    holds its exact value.  Inside an expression the literals keep their
    decimal value ([Q]): constraints and the objective are compared over
    exact numbers, which is what feasible and optimal mean here, while the
    number the script prints for the cost is the objective evaluated in
    floats.  A solution assigns an integer to every variable, the two
    integer domains of the script being the only ones it uses; the
    solver's numeric tolerance is outside the model. *)

From Stdlib Require Import String ZArith QArith Qround Qabs List Bool Lia.
From Stdlib Require Import PrimFloat SpecFloat FloatOps.
Import ListNotations.

Local Open Scope Z_scope.

(** ** Python values and exceptions *)

Inductive exn : Type :=
| IndexError          (* list index out of range *)
| ValueError          (* value of a variable that holds [None] *)
| TypeError           (* [format] of [None] with a width *)
| OverflowError       (* int too large to convert to float *)
| ApplicationError.   (* the solver could not be run, or ended abnormally *)

Inductive result (A : Type) : Type :=
| Ok (a : A)
| Raise (e : exn).
Arguments Ok {A} a.
Arguments Raise {A} e.

(** [l[i]] on a Python list: a negative index counts from the end. *)
Definition getitem (l : list Z) (i : Z) : result Z :=
  let n := Z.of_nat (length l) in
  if (0 <=? i) && (i <? n) then Ok (nth (Z.to_nat i) l 0)
  else if (- n <=? i) && (i <? 0) then Ok (nth (Z.to_nat (n + i)) l 0)
  else Raise IndexError.

(** ** Python floats *)

(** [float(n)] for an int [n]: the nearest float, ties to even. *)
Definition float_of_Z (n : Z) : float :=
  SF2Prim (binary_normalize prec emax n 0 false).

(** The conversion of an int operand to float; it raises when the nearest
    float would be infinite. *)
Definition py_float (n : Z) : result float :=
  let f := float_of_Z n in
  if is_infinity f then Raise OverflowError else Ok f.

(** A decimal literal, or an int used as a float: the float nearest to
    [q]. *)
Definition literal (q : Q) : float :=
  (float_of_Z (Qnum q) / float_of_Z (Zpos (Qden q)))%float.

(** [x * n] for a float [x] and an int [n]. *)
Definition float_mul_int (x : float) (n : Z) : result float :=
  match py_float n with
  | Ok f => Ok (x * f)%float
  | Raise e => Raise e
  end.

(** The exact value of a finite float. *)
Definition Q_of_float (f : float) : Q :=
  match Prim2SF f with
  | S754_finite s m e =>
      let n := if s then Zneg m else Zpos m in
      if 0 <=? e then inject_Z (n * 2 ^ e) else n # Z.to_pos (2 ^ (- e))
  | _ => 0%Q
  end.

(** [range(a, b)] *)
Definition range (a b : Z) : list Z :=
  map (fun k => a + Z.of_nat k) (seq 0 (Z.to_nat (b - a))).

Definition week : list Z := range 1 10.
Definition weekZ : list Z := range 0 10.

(** ** Variables, expressions, constraints *)

(** One constructor per [Var] family of the script, applied to the index. *)
Inductive var : Type :=
| prodA (i : Z)
| prodB (i : Z)
| deci (i : Z)
| chan (i : Z)
| storA (i : Z)
| storB (i : Z).

Definition var_eqb (v w : var) : bool :=
  match v, w with
  | prodA i, prodA j | prodB i, prodB j | deci i, deci j
  | chan i, chan j | storA i, storA j | storB i, storB j => i =? j
  | _, _ => false
  end.

Inductive domain : Type := NonNegativeIntegers | Binary.

Inductive expr : Type :=
| Const (q : Q)
| V (v : var)
| Add (e1 e2 : expr)
| Sub (e1 e2 : expr)
| Mul (e1 e2 : expr)
| Div (e1 e2 : expr).

Inductive constraint : Type :=
| Le (e1 e2 : expr)     (* e1 <= e2 *)
| Ge (e1 e2 : expr)     (* e1 >= e2 *)
| Equ (e1 e2 : expr).   (* e1 == e2 *)

Declare Scope expr_scope.
Delimit Scope expr_scope with E.
Bind Scope expr_scope with expr.
Notation "x + y" := (Add x y) : expr_scope.
Notation "x - y" := (Sub x y) : expr_scope.
Notation "x * y" := (Mul x y) : expr_scope.
Notation "x / y" := (Div x y) : expr_scope.
Notation "x <== y" := (Le x%E y%E) (at level 70, no associativity).
Notation "x >== y" := (Ge x%E y%E) (at level 70, no associativity).
Notation "x === y" := (Equ x%E y%E) (at level 70, no associativity).

(** A Python [int] as an expression leaf; a variable used as an expression. *)
Definition int (n : Z) : expr := Const (inject_Z n).
Coercion V : var >-> expr.

(** Python's [sum(...)]: starts from [0] and adds from the left. *)
Definition py_sum (l : list expr) : expr := fold_left Add l (int 0).

Inductive sense : Type := minimize | maximize.

(** The model object: declared variables, [conList], and the objective. *)
Record model : Type := Model {
  vars : list (var * domain);
  conList : list constraint;
  totalCost : option (expr * sense)
}.

Definition ConcreteModel : model := Model [] [] None.

(** ** The script's monad: the model as state, Python exceptions as errors *)

Definition M (A : Type) : Type := model -> result (A * model).

Definition ret {A} (a : A) : M A := fun m => Ok (a, m).

Definition bind {A B} (c : M A) (k : A -> M B) : M B :=
  fun m => match c m with
           | Ok (a, m') => k a m'
           | Raise e => Raise e
           end.

Notation "x <- c ;; k" := (bind c (fun x => k))
  (at level 61, c at next level, right associativity).
Notation "c ;; k" := (bind c (fun _ => k))
  (at level 61, right associativity).

Definition lift {A} (r : result A) : M A :=
  fun m => match r with Ok a => Ok (a, m) | Raise e => Raise e end.

(** [mdl.x = Var(index, domain=d)] *)
Definition Var (family : Z -> var) (index : list Z) (d : domain) : M unit :=
  fun m => Ok (tt, Model (vars m ++ map (fun i => (family i, d)) index)
                         (conList m) (totalCost m)).

(** [mdl.conList.add(expr = c)] *)
Definition add (c : constraint) : M unit :=
  fun m => Ok (tt, Model (vars m) (conList m ++ [c]) (totalCost m)).

(** [mdl.totalCost = Objective(expr = e, sense = s)] *)
Definition Objective (e : expr) (s : sense) : M unit :=
  fun m => Ok (tt, Model (vars m) (conList m) (Some (e, s))).

(** [for i in l: body] *)
Fixpoint for_ (l : list Z) (body : Z -> M unit) : M unit :=
  match l with
  | [] => ret tt
  | i :: l' => body i ;; for_ l' body
  end.

(** [l[i]] when it can be read, and whether it can. *)
Definition item (l : list Z) (i : Z) : Z :=
  match getitem l i with Ok a => a | Raise _ => 0 end.

Definition readable (l : list Z) (i : Z) : bool :=
  match getitem l i with Ok _ => true | Raise _ => false end.

(** The value of [0.8 * c] when the product can be formed, and whether it
    can. *)
Definition threshold (c : Z) : Q :=
  match float_mul_int (literal (8 # 10)) c with
  | Ok t => Q_of_float t
  | Raise _ => 0%Q
  end.

Definition fits (c : Z) : bool :=
  match py_float c with Ok _ => true | Raise _ => false end.

(** ** The model builder (lines 12 to 79 of the script)

    The demand lists of lines 5 and 6 and the big-M literal of lines 67 and
    68 are the section's variables; [script] below applies the builder to
    the script's own literals. *)

Section Builder.

Variables (consA consB : list Z) (bigM : Z).

Definition week_body (i : Z) : M unit :=
  add (prodA i <== int 100) ;;
  add (prodB i <== int 80) ;;
  a <- lift (getitem consA i) ;;
  ta <- lift (float_mul_int (literal (8 # 10)) a) ;;
  add (storA (i - 1) >== Const (Q_of_float ta)) ;;
  b <- lift (getitem consB i) ;;
  tb <- lift (float_mul_int (literal (8 # 10)) b) ;;
  add (storB (i - 1) >== Const (Q_of_float tb)) ;;
  a' <- lift (getitem consA i) ;;
  add (storA i === storA (i - 1) + prodA i - int a') ;;
  b' <- lift (getitem consB i) ;;
  add (storB i === storB (i - 1) + prodB i - int b') ;;
  add (prodA i <== int bigM * (int 1 - deci i)) ;;
  add (prodB i <== int bigM * deci i) ;;
  add (deci i - deci (i - 1) <== chan i) ;;
  add (deci (i - 1) - deci i <== chan i).

Definition objective : expr :=
  (py_sum (map (fun i => prodA i * int 225 + prodB i * int 310) week)
   + py_sum (map (fun i => storA i * Const (375 # 100000) * int 225
                           + storB i * Const (195 # 1000) / int 52 * int 310)
                 week)
   + int 500 * py_sum (map (fun i => V (chan i)) week))%E.

Definition build : M unit :=
  Var prodA week NonNegativeIntegers ;;
  Var prodB week NonNegativeIntegers ;;
  Var deci weekZ Binary ;;
  add (deci 0 === int 0) ;;
  Var chan week Binary ;;
  Var storA weekZ NonNegativeIntegers ;;
  Var storB weekZ NonNegativeIntegers ;;
  add (storA 0 === int 125) ;;
  add (storB 0 === int 143) ;;
  for_ week week_body ;;
  Objective objective minimize.

(** What [build] leaves in the model when no statement raises: the ten
    constraints one pass of the loop appends, the declarations in the order
    of the [Var] calls, and the whole model. *)
Definition week_constraints (i : Z) : list constraint :=
  [ prodA i <== int 100;
    prodB i <== int 80;
    storA (i - 1) >== Const (threshold (item consA i));
    storB (i - 1) >== Const (threshold (item consB i));
    storA i === storA (i - 1) + prodA i - int (item consA i);
    storB i === storB (i - 1) + prodB i - int (item consB i);
    prodA i <== int bigM * (int 1 - deci i);
    prodB i <== int bigM * deci i;
    deci i - deci (i - 1) <== chan i;
    deci (i - 1) - deci i <== chan i ].

Definition declarations : list (var * domain) :=
  map (fun i => (prodA i, NonNegativeIntegers)) week ++
  map (fun i => (prodB i, NonNegativeIntegers)) week ++
  map (fun i => (deci i, Binary)) weekZ ++
  map (fun i => (chan i, Binary)) week ++
  map (fun i => (storA i, NonNegativeIntegers)) weekZ ++
  map (fun i => (storB i, NonNegativeIntegers)) weekZ.

Definition built : model :=
  Model declarations
        ([deci 0 === int 0; storA 0 === int 125; storB 0 === int 143]
           ++ flat_map week_constraints week)
        (Some (objective, minimize)).

End Builder.

(** Lines 5 and 6. *)
Definition consA : list Z := [0; 55; 55; 44; 0; 45; 45; 36; 35; 35].
Definition consB : list Z := [0; 38; 38; 30; 0; 48; 48; 58; 57; 58].

(** The script's model construction and the model it leaves in [mdl]. *)
Definition script : M unit := build consA consB 1000.

Definition mdl : model :=
  match script ConcreteModel with
  | Ok (_, m) => m
  | Raise _ => ConcreteModel
  end.

(** ** Semantics: assignments, feasibility, optimality *)

(** The value the solver loads into each variable. *)
Definition assignment : Type := var -> Z.

Local Open Scope Q_scope.

Fixpoint eval (s : assignment) (e : expr) : Q :=
  match e with
  | Const q => q
  | V v => inject_Z (s v)
  | Add e1 e2 => eval s e1 + eval s e2
  | Sub e1 e2 => eval s e1 - eval s e2
  | Mul e1 e2 => eval s e1 * eval s e2
  | Div e1 e2 => eval s e1 / eval s e2
  end.

Definition holds (s : assignment) (c : constraint) : Prop :=
  match c with
  | Le e1 e2 => eval s e1 <= eval s e2
  | Ge e1 e2 => eval s e2 <= eval s e1
  | Equ e1 e2 => eval s e1 == eval s e2
  end.

Definition holdsb (s : assignment) (c : constraint) : bool :=
  match c with
  | Le e1 e2 => Qle_bool (eval s e1) (eval s e2)
  | Ge e1 e2 => Qle_bool (eval s e2) (eval s e1)
  | Equ e1 e2 => Qeq_bool (eval s e1) (eval s e2)
  end.

Local Close Scope Q_scope.

Definition in_domain (d : domain) (x : Z) : Prop :=
  match d with
  | NonNegativeIntegers => 0 <= x
  | Binary => x = 0 \/ x = 1
  end.

Definition in_domainb (d : domain) (x : Z) : bool :=
  match d with
  | NonNegativeIntegers => 0 <=? x
  | Binary => (x =? 0) || (x =? 1)
  end.

(** A feasible point: every declared variable in its domain, every
    constraint of [conList] satisfied. *)
Definition feasible (m : model) (s : assignment) : Prop :=
  Forall (fun vd => in_domain (snd vd) (s (fst vd))) (vars m) /\
  Forall (holds s) (conList m).

Definition feasibleb (m : model) (s : assignment) : bool :=
  forallb (fun vd => in_domainb (snd vd) (s (fst vd))) (vars m) &&
  forallb (holdsb s) (conList m).

(** The value of the objective, [mdl.totalCost()]. *)
Definition cost (m : model) (s : assignment) : Q :=
  match totalCost m with
  | Some (e, _) => eval s e
  | None => 0%Q
  end.

(** [s] is at least as good as [s'] for the sense of the objective. *)
Definition no_worse (m : model) (s s' : assignment) : Prop :=
  match totalCost m with
  | Some (_, maximize) => (cost m s' <= cost m s)%Q
  | _ => (cost m s <= cost m s')%Q
  end.

(** What an optimal solver status stands for: a feasible point that no
    feasible point beats. *)
Definition optimal (m : model) (s : assignment) : Prop :=
  feasible m s /\ forall s', feasible m s' -> no_worse m s s'.

(** Assignment update, used to compare neighbouring plans. *)
Definition update (s : assignment) (v : var) (x : Z) : assignment :=
  fun w => if var_eqb w v then x else s w.

(** Variables occurring in an expression or a constraint. *)
Fixpoint expr_vars (e : expr) : list var :=
  match e with
  | Const _ => []
  | V v => [v]
  | Add e1 e2 | Sub e1 e2 | Mul e1 e2 | Div e1 e2 => expr_vars e1 ++ expr_vars e2
  end.

Definition constraint_vars (c : constraint) : list var :=
  match c with
  | Le e1 e2 | Ge e1 e2 | Equ e1 e2 => expr_vars e1 ++ expr_vars e2
  end.

Definition declared (m : model) (v : var) : bool :=
  existsb (fun vd => var_eqb (fst vd) v) (vars m).

(** Every [mdl.x[i]] the script writes is an index of its family. *)
Definition closed (m : model) : bool :=
  forallb (fun c => forallb (declared m) (constraint_vars c)) (conList m) &&
  match totalCost m with
  | Some (e, _) => forallb (declared m) (expr_vars e)
  | None => true
  end.


(** ** After the solver call (lines 82 to 130)

    [SolverFactory('glpk').solve(mdl)] is outside the script: the solver is
    an arbitrary function from the model to either an exception, raised
    inside [solve] when the solver cannot be run or ends abnormally, or a
    status and, when a solution was loaded, the values of the variables.
    When [solve] returns, [.write()] shows the status; then the script
    evaluates [mdl.totalCost()] and prints the rows.  No statement reads the
    status.  A variable without a loaded value holds [None], and evaluating
    the objective on it raises. *)

Inductive termination : Type :=
| Optimal | Infeasible | Unbounded | TimedOut | SolverError.

Record results : Type := Results {
  status : termination;
  solution : option assignment
}.

(** *** The value of an expression in floats

    Pyomo folds the numeric factors of a term into one coefficient when the
    term is built ([storB[i]*0.195/52*310] has the coefficient
    [0.195/52*310]), keeps a sum of sums of terms as one flat sum, and
    evaluates a sum with Python's [sum]: from 0, left to right. *)

Fixpoint monomial (e : expr) : option (float * var) :=
  match e with
  | V v => Some (one, v)
  | Mul e1 e2 =>
      match e2 with
      | Const k =>
          match monomial e1 with
          | Some (c, v) => Some ((c * literal k)%float, v)
          | None => None
          end
      | _ =>
          match e1 with
          | Const k =>
              match monomial e2 with
              | Some (c, v) => Some ((literal k * c)%float, v)
              | None => None
              end
          | _ => None
          end
      end
  | Div e1 e2 =>
      match e2 with
      | Const k =>
          match monomial e1 with
          | Some (c, v) => Some ((c / literal k)%float, v)
          | None => None
          end
      | _ => None
      end
  | _ => None
  end.

Definition fsum (l : list float) : float := fold_left PrimFloat.add l zero.

Fixpoint summands (s : assignment) (e : expr) : list float :=
  match monomial e with
  | Some (c, v) => [(c * float_of_Z (s v))%float]
  | None =>
      match e with
      | Add e1 e2 => summands s e1 ++ summands s e2
      | Const q => [literal q]
      | V v => [float_of_Z (s v)]
      | Sub e1 e2 => [(fsum (summands s e1) - fsum (summands s e2))%float]
      | Mul e1 e2 => [(fsum (summands s e1) * fsum (summands s e2))%float]
      | Div e1 e2 => [(fsum (summands s e1) / fsum (summands s e2))%float]
      end
  end.

Definition fvalue (s : assignment) (e : expr) : float := fsum (summands s e).

(** The printed table: the cost line and one row per [print] loop. *)
Record report : Type := Report {
  r_cost : float;
  r_week : list Z;
  r_prodA : list Z;
  r_prodB : list Z;
  r_storA : list Z;
  r_storB : list Z;
  r_deci : list Z;
  r_chan : list Z
}.

(** [mdl.totalCost()] *)
Definition objective_value (m : model) (loaded : option assignment)
  : result float :=
  match loaded with
  | Some s => Ok (match totalCost m with
                  | Some (e, _) => fvalue s e
                  | None => zero
                  end)
  | None => Raise ValueError
  end.

Definition print_rows (c : float) (s : assignment) : report :=
  {| r_cost := c;
     r_week := map (fun i => item weekZ i) weekZ;
     r_prodA := map (fun i => s (prodA i)) week;
     r_prodB := map (fun i => s (prodB i)) week;
     r_storA := map (fun i => s (storA i)) weekZ;
     r_storB := map (fun i => s (storB i)) weekZ;
     r_deci := map (fun i => s (deci i)) weekZ;
     r_chan := map (fun i => s (chan i)) week |}.

(** The whole script: what [.write()] shows of the status (nothing when
    the builder or [solve] raised), and either the printed table or the
    exception that ends the run.  [format] of [None] raises too, but the
    objective is evaluated first. *)
Definition main (solve : model -> result results)
  : option termination * result report :=
  match script ConcreteModel with
  | Raise e => (None, Raise e)
  | Ok (_, m) =>
      match solve m with
      | Raise e => (None, Raise e)
      | Ok r =>
          (Some (status r),
           match objective_value m (solution r), solution r with
           | Raise e, _ => Raise e
           | Ok c, Some s => Ok (print_rows c s)
           | Ok _, None => Raise TypeError
           end)
      end
  end.

(** The exit status of the interpreter: 1 after an uncaught exception. *)
Definition exit_status {A} (r : result A) : Z :=
  match r with Ok _ => 0 | Raise _ => 1 end.


(** ** The cost in closed form *)

Definition sumQ (f : Z -> Q) (l : list Z) : Q :=
  fold_right (fun i acc => (f i + acc)%Q) 0%Q l.

Definition costA : Q := 225 # 1.
Definition costB : Q := 310 # 1.
Definition holdRateA : Q := (375 # 100000) * (225 # 1).
Definition holdRateB : Q := (195 # 1000) / (52 # 1) * (310 # 1).
Definition changeoverCost : Q := 500 # 1.

Definition closed_form_cost (s : assignment) : Q :=
  (sumQ (fun i => inject_Z (s (prodA i)) * costA
                  + inject_Z (s (prodB i)) * costB) week
   + sumQ (fun i => inject_Z (s (storA i)) * holdRateA
                    + inject_Z (s (storB i)) * holdRateB) week
   + changeoverCost * sumQ (fun i => inject_Z (s (chan i))) week)%Q.

(** ** A plan for the script's demand

    week    0    1    2    3    4    5    6    7    8    9
    prodA        25  100  100    0    0    0    0    0    0
    prodB         0    0    0    2   48   56   57   58   11
    storA  125   95  140  196  196  151  106   70   35    0
    storB  143  105   67   37   39   39   47   46   47    0
    deci     0    0    0    0    1    1    1    1    1    1
    chan          0    0    0    1    0    0    0    0    0        *)

Definition plan : assignment :=
  fun v => match v with
           | prodA i => nth (Z.to_nat i) [0; 25; 100; 100; 0; 0; 0; 0; 0; 0] 0
           | prodB i => nth (Z.to_nat i) [0; 0; 0; 0; 2; 48; 56; 57; 58; 11] 0
           | storA i =>
               nth (Z.to_nat i) [125; 95; 140; 196; 196; 151; 106; 70; 35; 0] 0
           | storB i =>
               nth (Z.to_nat i) [143; 105; 67; 37; 39; 39; 47; 46; 47; 0] 0
           | deci i => nth (Z.to_nat i) [0; 0; 0; 0; 1; 1; 1; 1; 1; 1] 0
           | chan i => nth (Z.to_nat i) [0; 0; 0; 0; 1; 0; 0; 0; 0; 0] 0
           end.

(** The same production with a changeover flagged in week 1 although the
    line stays on A: feasible, 500 dearer. *)
Definition plan_flagged : assignment := update plan (chan 1) 1.

(** A solver that stops at its time limit and loads the plan it has. *)
Definition timed_out_solver (m : model) : result results :=
  Ok {| status := TimedOut; solution := Some plan_flagged |}.



(** ** A lower bound on the cost of every plan with a given line pattern

    For a fixed line state per week the stocks decouple by product.  [need]
    is the least stock at the end of week [i] from which the [k] weeks that
    follow can still be served: the stock must carry the safety share of the
    next demand, and must reach the next week's need with at most one week
    of capacity.  [least] adds that stock never drops by more than the
    week's demand.  [bound] prices these least stocks; it is the cost times
    160, which makes every coefficient an integer. *)

Definition safety (c : Z) : Z := (8 * c + 9) / 10.

Fixpoint need (cons : list Z) (cap : Z -> Z) (k : nat) (i : Z) : Z :=
  match k with
  | O => 0
  | S k' => Z.max (safety (item cons (i + 1)))
                  (need cons cap k' (i + 1) + item cons (i + 1) - cap (i + 1))
  end.

Fixpoint least (cons : list Z) (cap : Z -> Z) (init : Z) (n : nat) : Z :=
  match n with
  | O => init
  | S n' => Z.max (need cons cap (9 - n) (Z.of_nat n))
                  (least cons cap init n' - item cons (Z.of_nat n))
  end.

(** The line state of week [i] read from the states of weeks 1 to 9. *)
Definition line (bits : list Z) (i : Z) : Z :=
  if i =? 0 then 0 else nth (Z.to_nat (i - 1)) bits 0.

Definition bits_of (s : assignment) : list Z :=
  map (fun i => s (deci i)) week.

Definition capA (d : Z -> Z) (i : Z) : Z := if d i =? 0 then 100 else 0.
Definition capB (d : Z -> Z) (i : Z) : Z := if d i =? 1 then 80 else 0.

Definition sumZ (f : Z -> Z) (l : list Z) : Z :=
  fold_right (fun i acc => f i + acc) 0 l.

Definition leastA (d : Z -> Z) (i : Z) : Z :=
  least consA (capA d) 125 (Z.to_nat i).
Definition leastB (d : Z -> Z) (i : Z) : Z :=
  least consB (capB d) 143 (Z.to_nat i).

Definition bound (d : Z -> Z) : Z :=
  36000 * (leastA d 9 - 125 + sumZ (item consA) week)
  + 49600 * (leastB d 9 - 143 + sumZ (item consB) week)
  + 135 * sumZ (leastA d) week
  + 186 * sumZ (leastB d) week
  + 80000 * sumZ (fun i => Z.abs (d i - d (i - 1))) week.

Definition servable (d : Z -> Z) : bool :=
  (need consA (capA d) 9 0 <=? 125) && (need consB (capB d) 9 0 <=? 143).

(** 160 times the cost of a plan. *)
Definition cost160 (s : assignment) : Z :=
  36000 * sumZ (fun i => s (prodA i)) week
  + 49600 * sumZ (fun i => s (prodB i)) week
  + 135 * sumZ (fun i => s (storA i)) week
  + 186 * sumZ (fun i => s (storB i)) week
  + 80000 * sumZ (fun i => s (chan i)) week.

Fixpoint bitlists (n : nat) : list (list Z) :=
  match n with
  | O => [[]]
  | S n' => flat_map (fun l => [0 :: l; 1 :: l]) (bitlists n')
  end.

(** ** The facts of one planned week, over the integers

    What the ten constraints of week [i] and the domains of the variables
    they mention say of a plan for the script's demand. *)
Record week_ok (s : assignment) (i : Z) : Prop := WeekOk {
  ok_prodA : 0 <= s (prodA i) <= 100;
  ok_prodB : 0 <= s (prodB i) <= 80;
  ok_safeA : 8 * item consA i <= 10 * s (storA (i - 1));
  ok_safeB : 8 * item consB i <= 10 * s (storB (i - 1));
  ok_balA : s (storA i) = s (storA (i - 1)) + s (prodA i) - item consA i;
  ok_balB : s (storB i) = s (storB (i - 1)) + s (prodB i) - item consB i;
  ok_bigA : s (prodA i) <= 1000 * (1 - s (deci i));
  ok_bigB : s (prodB i) <= 1000 * s (deci i);
  ok_up : s (deci i) - s (deci (i - 1)) <= s (chan i);
  ok_down : s (deci (i - 1)) - s (deci i) <= s (chan i);
  ok_deci : s (deci i) = 0 \/ s (deci i) = 1;
  ok_deci_prev : s (deci (i - 1)) = 0 \/ s (deci (i - 1)) = 1;
  ok_chan : s (chan i) = 0 \/ s (chan i) = 1;
  ok_storA : 0 <= s (storA i);
  ok_storB : 0 <= s (storB i)
}.

(** Lines 53 and 56, which the script leaves commented out. *)
Definition fulfillA (i : Z) : constraint :=
  prodA i + storA (i - 1) >== int (item consA i).
Definition fulfillB (i : Z) : constraint :=
  prodB i + storB (i - 1) >== int (item consB i).

(** ** Further notions used to describe the builder and its model *)

(** The ten relations of week [i] over the integers, for any demand and
    any big-M. *)
Definition week_rel (cA cB : list Z) (bigM : Z) (s : assignment) (i : Z)
  : Prop :=
  s (prodA i) <= 100 /\ s (prodB i) <= 80 /\
  (threshold (item cA i) <= inject_Z (s (storA (i - 1))))%Q /\
  (threshold (item cB i) <= inject_Z (s (storB (i - 1))))%Q /\
  s (storA i) = s (storA (i - 1)) + s (prodA i) - item cA i /\
  s (storB i) = s (storB (i - 1)) + s (prodB i) - item cB i /\
  s (prodA i) <= bigM * (1 - s (deci i)) /\
  s (prodB i) <= bigM * s (deci i) /\
  s (deci i) - s (deci (i - 1)) <= s (chan i) /\
  s (deci (i - 1)) - s (deci i) <= s (chan i).

(** Every declared variable is in its domain. *)
Definition in_domains (s : assignment) : Prop :=
  (forall i, In i week ->
     0 <= s (prodA i) /\ 0 <= s (prodB i) /\
     (s (chan i) = 0 \/ s (chan i) = 1)) /\
  (forall i, In i weekZ ->
     (s (deci i) = 0 \/ s (deci i) = 1) /\
     0 <= s (storA i) /\ 0 <= s (storB i)).

(** [v] occurs in a constraint of the model. *)
Definition used (m : model) (v : var) : bool :=
  existsb (fun c => existsb (var_eqb v) (constraint_vars c)) (conList m).

(** Linear expressions: no product of two expressions with variables, and
    division only by a non-zero constant. *)
Definition no_var (e : expr) : bool :=
  match expr_vars e with [] => true | _ :: _ => false end.

Fixpoint linear (e : expr) : bool :=
  match e with
  | Const _ | V _ => true
  | Add e1 e2 | Sub e1 e2 => linear e1 && linear e2
  | Mul e1 e2 => linear e1 && linear e2 && (no_var e1 || no_var e2)
  | Div e1 e2 =>
      linear e1 && no_var e2 && negb (Qeq_bool (eval (fun _ => 0) e2) 0)
  end.

Definition linear_constraint (c : constraint) : bool :=
  match c with
  | Le e1 e2 | Ge e1 e2 | Equ e1 e2 => linear e1 && linear e2
  end.

Definition linear_model (m : model) : bool :=
  forallb linear_constraint (conList m) &&
  match totalCost m with
  | Some (e, _) => linear e
  | None => true
  end.

(** The line pattern of [plan] for weeks 1 to 9. *)
Definition plan_bits : list Z := [0; 0; 0; 1; 1; 1; 1; 1; 1].

(** The script's demand with another entry at week 0 and one more week
    appended. *)
Definition other_consA : list Z := 7 :: tl consA ++ [99].
Definition other_consB : list Z := 3 :: tl consB ++ [12; 14].

(** The sum of a family over a list of weeks, as used for totals. *)
Definition total (s : assignment) (family : Z -> var) (l : list Z) : Z :=
  sumZ (fun i => s (family i)) l.

(** The production of [plan] with at most 99 machines in a week. *)
Definition plan99 : assignment :=
  update (update (update (update (update plan
    (prodA 1) 27) (prodA 2) 99) (prodA 3) 99) (storA 1) 97) (storA 2) 141.

(** Both demand lists can be read and used in every planned week. *)
Definition buildable (cA cB : list Z) : bool :=
  forallb (fun i => readable cA i && fits (item cA i)
                    && (readable cB i && fits (item cB i))) week.

(** Equality of line patterns, decided. *)
Definition bits_eqb (l l' : list Z) : bool :=
  if list_eq_dec Z.eq_dec l l' then true else false.

(** * Proofs *)

(** ** Decision procedures agree with the propositions *)

Lemma var_eqb_eq v w : var_eqb v w = true <-> v = w.
Proof.
  destruct v, w; simpl; rewrite ?Z.eqb_eq;
    split; intros H; try discriminate; try congruence.
Qed.

Lemma holdsb_holds s c : holdsb s c = true <-> holds s c.
Proof.
  destruct c; simpl;
    [apply Qle_bool_iff | apply Qle_bool_iff | apply Qeq_bool_iff].
Qed.

Lemma in_domainb_in_domain d x : in_domainb d x = true <-> in_domain d x.
Proof.
  destruct d; simpl.
  - apply Z.leb_le.
  - rewrite orb_true_iff, !Z.eqb_eq. tauto.
Qed.

Lemma feasibleb_feasible m s : feasibleb m s = true <-> feasible m s.
Proof.
  unfold feasibleb, feasible.
  rewrite andb_true_iff, !forallb_forall, !Forall_forall.
  split; intros [H1 H2]; split; intros x Hx.
  - apply in_domainb_in_domain, H1, Hx.
  - apply holdsb_holds, H2, Hx.
  - apply in_domainb_in_domain, H1, Hx.
  - apply holdsb_holds, H2, Hx.
Qed.

(** ** The run of the builder *)

Lemma week_eq : week = [1; 2; 3; 4; 5; 6; 7; 8; 9].
Proof. reflexivity. Qed.

Lemma weekZ_eq : weekZ = [0; 1; 2; 3; 4; 5; 6; 7; 8; 9].
Proof. reflexivity. Qed.

Lemma in_week i : In i week <-> 1 <= i <= 9.
Proof. rewrite week_eq. simpl. lia. Qed.

Lemma in_weekZ i : In i weekZ <-> 0 <= i <= 9.
Proof. rewrite weekZ_eq. simpl. lia. Qed.

Section Built.

Variables (cA cB : list Z) (bigM : Z).

Lemma getitem_cases l i :
  getitem l i = Ok (item l i) /\ readable l i = true \/
  getitem l i = Raise IndexError /\ readable l i = false.
Proof.
  unfold item, readable, getitem.
  destruct (_ && _); [left; split; reflexivity|].
  destruct (_ && _); [left | right]; split; reflexivity.
Qed.

(** An entry that can be read and converted gives its threshold. *)
Lemma threshold_run l i :
  readable l i && fits (item l i) = true ->
  getitem l i = Ok (item l i) /\
  exists t, float_mul_int (literal (8 # 10)) (item l i) = Ok t /\
            Q_of_float t = threshold (item l i).
Proof.
  intros H. apply andb_true_iff in H as [Hr Hf].
  destruct (getitem_cases l i) as [[E _] | [_ E]]; [|congruence].
  split; [exact E|].
  unfold fits in Hf. unfold threshold, float_mul_int.
  destruct (py_float (item l i)) as [f|e]; [|discriminate].
  eexists. split; reflexivity.
Qed.

Lemma week_body_ok i m :
  readable cA i && fits (item cA i)
  && (readable cB i && fits (item cB i)) = true ->
  week_body cA cB bigM i m =
  Ok (tt, Model (vars m) (conList m ++ week_constraints cA cB bigM i)
                (totalCost m)).
Proof.
  intros H. apply andb_true_iff in H as [HA HB].
  destruct (threshold_run cA i HA) as (EA & ta & Ea & Ta).
  destruct (threshold_run cB i HB) as (EB & tb & Eb & Tb).
  unfold week_body, bind, lift, add, week_constraints.
  rewrite EA, EB, Ea, Eb, Ta, Tb. cbn [vars conList totalCost].
  rewrite <- !app_assoc. reflexivity.
Qed.

Lemma for_week_body_ok l :
  forallb (fun i => readable cA i && fits (item cA i)
                    && (readable cB i && fits (item cB i))) l = true ->
  forall m,
  for_ l (week_body cA cB bigM) m =
  Ok (tt, Model (vars m)
                (conList m ++ flat_map (week_constraints cA cB bigM) l)
                (totalCost m)).
Proof.
  induction l as [|i l IH]; intros H m.
  - cbn [for_ flat_map]. unfold ret. rewrite app_nil_r.
    destruct m; reflexivity.
  - cbn [forallb] in H. apply andb_true_iff in H as [Hi Hl].
    cbn [for_ flat_map]. unfold bind at 1. rewrite (week_body_ok i m Hi).
    rewrite (IH Hl). cbn [vars conList totalCost].
    rewrite <- app_assoc. reflexivity.
Qed.

(** When every read and every product of the loop goes through, the
    builder leaves the model [built]. *)
Lemma build_ok :
  buildable cA cB = true ->
  build cA cB bigM ConcreteModel = Ok (tt, built cA cB bigM).
Proof.
  intros H. unfold build, bind, Var, add, Objective, ConcreteModel.
  cbn [vars conList totalCost app].
  rewrite (for_week_body_ok week H).
  unfold built, declarations. cbn [vars conList totalCost app].
  rewrite <- !app_assoc. reflexivity.
Qed.

End Built.

Lemma script_run : script ConcreteModel = Ok (tt, built consA consB 1000).
Proof. unfold script. apply build_ok. vm_compute. reflexivity. Qed.

Lemma mdl_built : mdl = built consA consB 1000.
Proof. unfold mdl. rewrite script_run. reflexivity. Qed.

(** The script never indexes a variable family outside its index set. *)
Lemma mdl_closed : closed mdl = true.
Proof. vm_compute. reflexivity. Qed.

(** ** From the constraint list to the facts of a week *)

Lemma le_Z a b : (inject_Z a <= inject_Z b)%Q <-> a <= b.
Proof. rewrite <- Zle_Qle. tauto. Qed.

Lemma safety_Z c x :
  ((8 # 10) * inject_Z c <= inject_Z x)%Q <-> 8 * c <= 10 * x.
Proof. unfold Qle, Qmult, inject_Z; cbn [Qnum Qden Pos.mul]. lia. Qed.

Lemma balance_Z x y p c :
  (inject_Z x == inject_Z y + inject_Z p - inject_Z c)%Q <-> x = y + p - c.
Proof.
  unfold Qminus. rewrite <- inject_Z_opp, <- !inject_Z_plus.
  rewrite inject_Z_injective. lia.
Qed.

Lemma bigA_Z p m d :
  (inject_Z p <= inject_Z m * (inject_Z 1 - inject_Z d))%Q
  <-> p <= m * (1 - d).
Proof.
  unfold Qminus.
  rewrite <- inject_Z_opp, <- inject_Z_plus, <- inject_Z_mult, le_Z. lia.
Qed.

Lemma bigB_Z p m d :
  (inject_Z p <= inject_Z m * inject_Z d)%Q <-> p <= m * d.
Proof. rewrite <- inject_Z_mult, le_Z. tauto. Qed.

Lemma diff_Z a b c :
  (inject_Z a - inject_Z b <= inject_Z c)%Q <-> a - b <= c.
Proof.
  unfold Qminus. rewrite <- inject_Z_opp, <- inject_Z_plus, le_Z. lia.
Qed.

Lemma eq_Z a b : (inject_Z a == inject_Z b)%Q <-> a = b.
Proof. apply inject_Z_injective. Qed.

(** The ten constraints of a week hold exactly when the ten relations
    do, for any demand and big-M. *)
Lemma week_constraints_rel cA cB bigM s i :
  Forall (holds s) (week_constraints cA cB bigM i) <-> week_rel cA cB bigM s i.
Proof.
  unfold week_constraints, week_rel. rewrite !Forall_cons_iff.
  cbn [holds eval int].
  rewrite !le_Z, !balance_Z, bigA_Z, bigB_Z, !diff_Z.
  assert (Hnil : Forall (holds s) [] <-> True)
    by (split; [trivial | constructor]).
  rewrite Hnil. tauto.
Qed.

(** A bound on an integer is a bound by the next integer above. *)
Lemma Qle_ceiling_Z q x : (q <= inject_Z x)%Q <-> Qceiling q <= x.
Proof.
  split; intros H.
  - rewrite <- (Qceiling_Z x). apply Qceiling_resp_le, H.
  - apply Qle_trans with (inject_Z (Qceiling q)); [apply Qle_ceiling|].
    apply le_Z, H.
Qed.

Ltac threshold_value :=
  match goal with
  | |- Qceiling ?q <= _ <-> 8 * ?c <= _ =>
      let v := eval vm_compute in (Qceiling q) in
      let w := eval vm_compute in c in
      change (Qceiling q) with v; change c with w; lia
  end.

(** For the demand of the script the float products [0.8 * c] bound the
    integer stocks exactly as the decimal 0.8 does. *)
Lemma threshold_script i x :
  In i week ->
  ((threshold (item consA i) <= inject_Z x)%Q <-> 8 * item consA i <= 10 * x)
  /\
  ((threshold (item consB i) <= inject_Z x)%Q <-> 8 * item consB i <= 10 * x).
Proof.
  intros Hi. rewrite week_eq in Hi. cbn [In] in Hi.
  rewrite !Qle_ceiling_Z.
  destruct Hi as [<- | [<- | [<- | [<- | [<- | [<- | [<- | [<- | [<- | []]]]]]]]]];
    split; threshold_value.
Qed.

(** The ten constraints of a planned week hold exactly when the ten
    integer relations do. *)
Lemma week_constraints_Z s i :
  In i week ->
  (Forall (holds s) (week_constraints consA consB 1000 i) <->
   (s (prodA i) <= 100 /\ s (prodB i) <= 80 /\
    8 * item consA i <= 10 * s (storA (i - 1)) /\
    8 * item consB i <= 10 * s (storB (i - 1)) /\
    s (storA i) = s (storA (i - 1)) + s (prodA i) - item consA i /\
    s (storB i) = s (storB (i - 1)) + s (prodB i) - item consB i /\
    s (prodA i) <= 1000 * (1 - s (deci i)) /\
    s (prodB i) <= 1000 * s (deci i) /\
    s (deci i) - s (deci (i - 1)) <= s (chan i) /\
    s (deci (i - 1)) - s (deci i) <= s (chan i))).
Proof.
  intros Hi. rewrite week_constraints_rel. unfold week_rel.
  destruct (threshold_script i (s (storA (i - 1))) Hi) as [-> _].
  destruct (threshold_script i (s (storB (i - 1))) Hi) as [_ ->].
  tauto.
Qed.

Lemma feasible_constraints s :
  feasible mdl s ->
  s (deci 0) = 0 /\ s (storA 0) = 125 /\ s (storB 0) = 143 /\
  forall i, In i week -> Forall (holds s) (week_constraints consA consB 1000 i).
Proof.
  intros [_ H]. rewrite mdl_built in H. unfold built in H.
  cbn [conList app] in H.
  rewrite !Forall_cons_iff, Forall_flat_map, Forall_forall in H.
  cbn [holds eval int] in H. rewrite !eq_Z in H. tauto.
Qed.

Lemma feasible_domain s v d :
  feasible mdl s -> In (v, d) (declarations) -> in_domain d (s v).
Proof.
  intros [H _] Hin. rewrite mdl_built in H. unfold built in H.
  cbn [vars] in H. rewrite Forall_forall in H. exact (H (v, d) Hin).
Qed.

Lemma declared_in (family : Z -> var) (d : domain) l i :
  In i l -> In (family i, d) (map (fun i => (family i, d)) l).
Proof. intros H. apply (in_map (fun i => (family i, d))), H. Qed.

Lemma dom_prodA s i : feasible mdl s -> In i week -> 0 <= s (prodA i).
Proof.
  intros F Hi. apply (feasible_domain s _ NonNegativeIntegers F).
  unfold declarations. rewrite !in_app_iff.
  pose proof (declared_in prodA NonNegativeIntegers week i Hi). tauto.
Qed.

Lemma dom_prodB s i : feasible mdl s -> In i week -> 0 <= s (prodB i).
Proof.
  intros F Hi. apply (feasible_domain s _ NonNegativeIntegers F).
  unfold declarations. rewrite !in_app_iff.
  pose proof (declared_in prodB NonNegativeIntegers week i Hi). tauto.
Qed.

Lemma dom_storA s i : feasible mdl s -> In i weekZ -> 0 <= s (storA i).
Proof.
  intros F Hi. apply (feasible_domain s _ NonNegativeIntegers F).
  unfold declarations. rewrite !in_app_iff.
  pose proof (declared_in storA NonNegativeIntegers weekZ i Hi). tauto.
Qed.

Lemma dom_storB s i : feasible mdl s -> In i weekZ -> 0 <= s (storB i).
Proof.
  intros F Hi. apply (feasible_domain s _ NonNegativeIntegers F).
  unfold declarations. rewrite !in_app_iff.
  pose proof (declared_in storB NonNegativeIntegers weekZ i Hi). tauto.
Qed.

Lemma dom_deci s i :
  feasible mdl s -> In i weekZ -> s (deci i) = 0 \/ s (deci i) = 1.
Proof.
  intros F Hi. apply (feasible_domain s _ Binary F). unfold declarations. rewrite !in_app_iff.
  pose proof (declared_in deci Binary weekZ i Hi). tauto.
Qed.

Lemma dom_chan s i :
  feasible mdl s -> In i week -> s (chan i) = 0 \/ s (chan i) = 1.
Proof.
  intros F Hi. apply (feasible_domain s _ Binary F). unfold declarations. rewrite !in_app_iff.
  pose proof (declared_in chan Binary week i Hi). tauto.
Qed.

Lemma week_prev i : In i week -> In (i - 1) weekZ.
Proof. rewrite in_week, in_weekZ. lia. Qed.

Lemma week_weekZ i : In i week -> In i weekZ.
Proof. rewrite in_week, in_weekZ. lia. Qed.

Lemma feasible_week_ok s i : feasible mdl s -> In i week -> week_ok s i.
Proof.
  intros F Hi.
  destruct (feasible_constraints s F) as (_ & _ & _ & Hw).
  pose proof (proj1 (week_constraints_Z s i Hi) (Hw i Hi)) as Hc.
  pose proof (dom_prodA s i F Hi). pose proof (dom_prodB s i F Hi).
  pose proof (dom_deci s i F (week_weekZ i Hi)).
  pose proof (dom_deci s (i - 1) F (week_prev i Hi)).
  pose proof (dom_chan s i F Hi).
  pose proof (dom_storA s i F (week_weekZ i Hi)).
  pose proof (dom_storB s i F (week_weekZ i Hi)).
  constructor; tauto || lia.
Qed.

Lemma plan_feasible : feasible mdl plan.
Proof. apply feasibleb_feasible. vm_compute. reflexivity. Qed.

(** ** Invariants of every feasible plan *)

Lemma plan_week_1 : In 1 week.
Proof. apply in_week. lia. Qed.

(** C3.  In every feasible solution of the built model the inventory
    balance holds exactly for both products and every planned week:
    storX[i] = storX[i-1] + prodX[i] - consX[i]. *)
Theorem inventory_balance (s : assignment) (i : Z) :
  feasible mdl s -> In i week ->
  s (storA i) = s (storA (i - 1)) + s (prodA i) - item consA i /\
  s (storB i) = s (storB (i - 1)) + s (prodB i) - item consB i.
Proof.
  intros F Hi. destruct (feasible_week_ok s i F Hi). split; assumption.
Qed.

Lemma inventory_balance_plan :
  feasible mdl plan /\ In 1 week /\
  plan (storA 1) = plan (storA (1 - 1)) + plan (prodA 1) - item consA 1 /\
  plan (storB 1) = plan (storB (1 - 1)) + plan (prodB 1) - item consB 1.
Proof.
  split; [exact plan_feasible|]. split; [exact plan_week_1|].
  apply (inventory_balance plan 1); [exact plan_feasible | exact plan_week_1].
Defined.

(** No constraint of the list has the shape of the commented-out lines. *)
Lemma no_sum_lower_bound e1 e2 e3 :
  ~ In (Ge (Add e1 e2) e3) (conList mdl).
Proof.
  rewrite mdl_built. unfold built. cbn [conList app].
  intros [H | [H | [H | H]]]; try discriminate.
  apply in_flat_map in H as (j & _ & H).
  unfold week_constraints in H. cbn [In] in H.
  repeat (destruct H as [H | H]; [discriminate|]). exact H.
Qed.

(** C4.  The demand-fulfillment constraints of lines 53 and 56 are not in
    the model, and still every feasible solution meets each week's demand
    from production plus carried stock, for both products: the stock after
    the week is a non-negative integer and the balance constraint fixes it
    to carried stock plus production minus demand. *)
Theorem demand_met (s : assignment) (i : Z) :
  feasible mdl s -> In i week ->
  (~ In (fulfillA i) (conList mdl) /\ ~ In (fulfillB i) (conList mdl)) /\
  item consA i <= s (prodA i) + s (storA (i - 1)) /\
  item consB i <= s (prodB i) + s (storB (i - 1)) /\
  holds s (fulfillA i) /\ holds s (fulfillB i).
Proof.
  intros F Hi. destruct (feasible_week_ok s i F Hi).
  split; [split; apply no_sum_lower_bound|].
  assert (HA : item consA i <= s (prodA i) + s (storA (i - 1))) by lia.
  assert (HB : item consB i <= s (prodB i) + s (storB (i - 1))) by lia.
  repeat split; try assumption; unfold fulfillA, fulfillB; cbn [holds eval int];
    rewrite <- inject_Z_plus; apply le_Z; assumption.
Qed.

Lemma demand_met_plan :
  feasible mdl plan /\ In 1 week /\
  item consA 1 <= plan (prodA 1) + plan (storA (1 - 1)) /\
  item consB 1 <= plan (prodB 1) + plan (storB (1 - 1)).
Proof.
  split; [exact plan_feasible|]. split; [exact plan_week_1|].
  destruct (demand_met plan 1 plan_feasible plan_week_1) as (_ & HA & HB & _).
  split; assumption.
Defined.

(** C5.  In every feasible solution and every planned week the two big-M
    constraints hold, production of A forces line state 0, production of B
    forces line state 1, and so at most one of the two is non-zero. *)
Theorem one_product_per_week (s : assignment) (i : Z) :
  feasible mdl s -> In i week ->
  s (prodA i) <= 1000 * (1 - s (deci i)) /\
  s (prodB i) <= 1000 * s (deci i) /\
  (0 < s (prodA i) -> s (deci i) = 0) /\
  (0 < s (prodB i) -> s (deci i) = 1) /\
  (s (prodA i) = 0 \/ s (prodB i) = 0).
Proof.
  intros F Hi. destruct (feasible_week_ok s i F Hi). lia.
Qed.

Lemma one_product_per_week_plan :
  feasible mdl plan /\ In 1 week /\
  plan (prodA 1) <= 1000 * (1 - plan (deci 1)) /\
  plan (prodB 1) <= 1000 * plan (deci 1) /\
  (0 < plan (prodA 1) -> plan (deci 1) = 0) /\
  (0 < plan (prodB 1) -> plan (deci 1) = 1) /\
  (plan (prodA 1) = 0 \/ plan (prodB 1) = 0).
Proof.
  split; [exact plan_feasible|]. split; [exact plan_week_1|].
  apply (one_product_per_week plan 1);
    [exact plan_feasible | exact plan_week_1].
Defined.

(** C7.  In every feasible solution, for both products and every planned
    week, the stock carried into the week is at least 0.8 times the week's
    demand. *)
Theorem safety_stock (s : assignment) (i : Z) :
  feasible mdl s -> In i week ->
  ((8 # 10) * inject_Z (item consA i) <= inject_Z (s (storA (i - 1))))%Q /\
  ((8 # 10) * inject_Z (item consB i) <= inject_Z (s (storB (i - 1))))%Q.
Proof.
  intros F Hi. destruct (feasible_week_ok s i F Hi).
  split; apply safety_Z; assumption.
Qed.

Lemma safety_stock_plan :
  feasible mdl plan /\ In 1 week /\
  ((8 # 10) * inject_Z (item consA 1) <= inject_Z (plan (storA (1 - 1))))%Q /\
  ((8 # 10) * inject_Z (item consB 1) <= inject_Z (plan (storB (1 - 1))))%Q.
Proof.
  split; [exact plan_feasible|]. split; [exact plan_week_1|].
  apply (safety_stock plan 1); [exact plan_feasible | exact plan_week_1].
Defined.

(** C9.  In every feasible solution and every planned week production is
    within the weekly capacity: between 0 and 100 for A, between 0 and 80
    for B. *)
Theorem capacity_bound (s : assignment) (i : Z) :
  feasible mdl s -> In i week ->
  0 <= s (prodA i) <= 100 /\ 0 <= s (prodB i) <= 80.
Proof.
  intros F Hi. destruct (feasible_week_ok s i F Hi). split; assumption.
Qed.

Lemma capacity_bound_plan :
  feasible mdl plan /\ In 1 week /\
  0 <= plan (prodA 1) <= 100 /\ 0 <= plan (prodB 1) <= 80.
Proof.
  split; [exact plan_feasible|]. split; [exact plan_week_1|].
  apply (capacity_bound plan 1); [exact plan_feasible | exact plan_week_1].
Defined.

(** C10.  In every feasible solution the line starts in state 0 and the
    stocks of week 0 are 125 for A and 143 for B. *)
Theorem initial_conditions (s : assignment) :
  feasible mdl s ->
  s (deci 0) = 0 /\ s (storA 0) = 125 /\ s (storB 0) = 143.
Proof.
  intros F. destruct (feasible_constraints s F) as (H1 & H2 & H3 & _).
  repeat split; assumption.
Qed.

Lemma initial_conditions_plan :
  feasible mdl plan /\
  plan (deci 0) = 0 /\ plan (storA 0) = 125 /\ plan (storB 0) = 143.
Proof.
  split; [exact plan_feasible|].
  apply (initial_conditions plan). exact plan_feasible.
Defined.

(** ** The objective *)

Local Open Scope Q_scope.

Lemma sumQ_ext f g l :
  (forall i, f i == g i) -> sumQ f l == sumQ g l.
Proof.
  intros H. induction l as [|i l IH]; simpl; [reflexivity|].
  rewrite H, IH. reflexivity.
Qed.

Lemma sumQ_plus f g l :
  sumQ (fun i => f i + g i) l == sumQ f l + sumQ g l.
Proof.
  induction l as [|i l IH]; simpl; [ring|]. rewrite IH. ring.
Qed.

Lemma sumQ_scale f c l :
  sumQ (fun i => f i * c) l == sumQ f l * c.
Proof.
  induction l as [|i l IH]; simpl; [ring|]. rewrite IH. ring.
Qed.

Lemma sumQ_inject f l :
  sumQ (fun i => inject_Z (f i)) l == inject_Z (sumZ f l).
Proof.
  induction l as [|i l IH]; simpl; [reflexivity|].
  rewrite IH, inject_Z_plus. reflexivity.
Qed.

(** Python's left-to-right [sum] has the value of the mathematical sum. *)
Lemma eval_fold_left_Add s (g : Z -> expr) l : forall acc,
  eval s (fold_left Add (map g l) acc)
  == eval s acc + sumQ (fun i => eval s (g i)) l.
Proof.
  induction l as [|i l IH]; intros acc; simpl.
  - ring.
  - rewrite IH. simpl. ring.
Qed.

Lemma eval_py_sum s (g : Z -> expr) l :
  eval s (py_sum (map g l)) == sumQ (fun i => eval s (g i)) l.
Proof.
  unfold py_sum. rewrite eval_fold_left_Add. simpl. ring.
Qed.

Lemma hold_rates :
  holdRateA == 135 # 160 /\ holdRateB == 186 # 160.
Proof. split; reflexivity. Qed.

Lemma cost_closed_form s : cost mdl s == closed_form_cost s.
Proof.
  rewrite mdl_built. unfold cost, built, objective. cbn [totalCost].
  cbn [eval]. rewrite !eval_py_sum. unfold closed_form_cost.
  cbn [eval int].
  apply Qplus_comp; [apply Qplus_comp|].
  - apply sumQ_ext. intros i. reflexivity.
  - apply sumQ_ext. intros i. unfold holdRateA, holdRateB.
    change (inject_Z 225) with (225 # 1).
    change (inject_Z 52) with (52 # 1).
    change (inject_Z 310) with (310 # 1).
    field.
  - reflexivity.
Qed.

Lemma closed_form_160 s :
  closed_form_cost s == inject_Z (cost160 s) / (160 # 1).
Proof.
  unfold closed_form_cost, cost160.
  rewrite !sumQ_plus, !sumQ_scale, !sumQ_inject.
  rewrite !inject_Z_plus, !inject_Z_mult.
  destruct hold_rates as [-> ->].
  unfold costA, costB, changeoverCost.
  change (inject_Z 36000) with (36000 # 1).
  change (inject_Z 49600) with (49600 # 1).
  change (inject_Z 135) with (135 # 1).
  change (inject_Z 186) with (186 # 1).
  change (inject_Z 80000) with (80000 # 1).
  field.
Qed.

Lemma cost_160 s : cost mdl s == inject_Z (cost160 s) / (160 # 1).
Proof. rewrite cost_closed_form. apply closed_form_160. Qed.

Lemma cost_le_160 s s' : cost mdl s <= cost mdl s' <-> (cost160 s <= cost160 s')%Z.
Proof.
  rewrite !cost_160, <- le_Z.
  generalize (inject_Z (cost160 s)) (inject_Z (cost160 s')); intros x y.
  split; intros H.
  - apply Qmult_le_r with (z := / (160 # 1)); [reflexivity | exact H].
  - apply Qmult_le_r with (z := / (160 # 1)) in H; [exact H | reflexivity].
Qed.

Local Close Scope Q_scope.

(** ** The run of the whole script *)

Lemma main_run solve :
  main solve =
  match solve mdl with
  | Raise e => (None, Raise e)
  | Ok r =>
      (Some (status r),
       match solution r with
       | Some s => Ok (print_rows (fvalue s objective) s)
       | None => Raise ValueError
       end)
  end.
Proof.
  rewrite mdl_built. unfold main. rewrite script_run.
  destruct (solve _) as [r | e]; [|reflexivity].
  destruct (solution r); reflexivity.
Qed.





(** *** The float value reads the variables of the expression only *)





(** ** Solver status *)

(** C2, as the code has it.  The script never reads the solver status.
    When [solve] raises, nothing is shown and the exception ends the run.
    When it returns, the status is shown, and the cost and the rows are
    printed exactly when the solver loaded values, whatever the status;
    without loaded values the evaluation of the objective raises.  The
    exit status is 0 exactly in the runs where [solve] returned with
    values loaded. *)
Theorem report_ignores_status (solve : model -> result results) :
  main solve =
    match solve mdl with
    | Raise e => (None, Raise e)
    | Ok r =>
        (Some (status r),
         match solution r with
         | Some s => Ok (print_rows (fvalue s objective) s)
         | None => Raise ValueError
         end)
    end /\
  (exit_status (snd (main solve)) = 0 <->
   exists r s, solve mdl = Ok r /\ solution r = Some s).
Proof.
  rewrite main_run. split; [reflexivity|].
  destruct (solve mdl) as [r | e]; cbn [snd exit_status].
  - destruct (solution r) as [s|] eqn:Hs; cbn [exit_status]; split.
    + intros _. exists r, s. split; [reflexivity | exact Hs].
    + reflexivity.
    + discriminate.
    + intros (r' & s & E & Hs'). injection E as <-. congruence.
  - split; [discriminate|]. intros (r & s & E & _). discriminate.
Qed.

(** C2 fails on the code: a solver that times out with a plan loaded gets
    that plan printed, and the exit status is 0. *)
Lemma timed_out_plan_reported :
  fst (main timed_out_solver) = Some TimedOut /\
  snd (main timed_out_solver)
    = Ok (print_rows (fvalue plan_flagged objective) plan_flagged) /\
  exit_status (snd (main timed_out_solver)) = 0 /\
  ~ ((forall rep, snd (main timed_out_solver) = Ok rep ->
                  fst (main timed_out_solver) = Some Optimal) /\
     (exit_status (snd (main timed_out_solver)) = 0 ->
      fst (main timed_out_solver) = Some Optimal)).
Proof.
  rewrite main_run. cbn [fst snd timed_out_solver status solution exit_status].
  repeat split. intros [_ H]. specialize (H eq_refl). discriminate.
Qed.

(** ** Clearing a changeover flag that no switch requires *)

Lemma totalCost_mdl : totalCost mdl = Some (objective, minimize).
Proof. rewrite mdl_built. reflexivity. Qed.

Lemma no_worse_mdl s s' : no_worse mdl s s' <-> cost160 s <= cost160 s'.
Proof. unfold no_worse. rewrite totalCost_mdl. apply cost_le_160. Qed.

Lemma in_domain_update d s v x w :
  in_domain d x -> in_domain d (s w) -> in_domain d (update s v x w).
Proof. unfold update. destruct (var_eqb w v); auto. Qed.

Lemma unflag_feasible s i :
  feasible mdl s -> In i week -> s (deci i) = s (deci (i - 1)) ->
  feasible mdl (update s (chan i) 0).
Proof.
  intros F Hi Heq. pose proof F as [Hd _].
  destruct (feasible_constraints s F) as (H0 & HA & HB & Hw).
  split.
  - eapply Forall_impl; [|exact Hd].
    intros [v d] H. cbn [fst snd] in *.
    apply in_domain_update; [|exact H].
    destruct d; simpl; [lia | left; reflexivity].
  - rewrite mdl_built. unfold built. cbn [conList app].
    rewrite !Forall_cons_iff, Forall_flat_map, Forall_forall.
    cbn [holds eval int]. rewrite !eq_Z.
    unfold update at 1 2 3. cbn [var_eqb].
    repeat split; try assumption.
    intros j Hj. apply (week_constraints_Z _ j Hj).
    pose proof (proj1 (week_constraints_Z s j Hj) (Hw j Hj)) as Hs.
    unfold update. cbn [var_eqb].
    destruct (Z.eqb_spec j i) as [-> | _]; [|exact Hs].
    repeat split; try tauto; lia.
Qed.

Lemma unflag_cost160 s i :
  In i week ->
  cost160 (update s (chan i) 0) = cost160 s - 80000 * s (chan i).
Proof.
  intros Hi. unfold cost160, update. cbn [var_eqb].
  rewrite week_eq in *. unfold sumZ. cbn [fold_right]. cbn [In] in Hi.
  destruct Hi as [<- | [<- | [<- | [<- | [<- | [<- | [<- | [<- | [<- | []]]]]]]]]];
    cbn [Z.eqb Pos.eqb]; lia.
Qed.

(** C1.  At every optimal solution of the built model and in every planned
    week the changeover variable is 1 exactly when the line state differs
    from the state of the week before, and 0 exactly when it does not: the
    constraints only bound it from below, and a flag set without a switch
    could be cleared for 500 less. *)
Theorem changeover_exact (s : assignment) (i : Z) :
  optimal mdl s -> In i week ->
  (s (chan i) = 1 <-> s (deci i) <> s (deci (i - 1))) /\
  (s (chan i) = 0 <-> s (deci i) = s (deci (i - 1))).
Proof.
  intros [F Hopt] Hi. destruct (feasible_week_ok s i F Hi).
  destruct (Z.eq_dec (s (deci i)) (s (deci (i - 1)))) as [E | N]; [|lia].
  assert (H0 : s (chan i) = 0); [|lia].
  destruct ok_chan0 as [H | H1]; [exact H | exfalso].
  specialize (Hopt _ (unflag_feasible s i F Hi E)).
  apply (proj1 (no_worse_mdl _ _)) in Hopt.
  rewrite unflag_cost160 in Hopt by exact Hi.
  lia.
Qed.

(** ** The plan of the table is optimal *)

Lemma safety_le c x : 8 * c <= 10 * x -> safety c <= x.
Proof. unfold safety. intros H. Z.div_mod_to_equations. lia. Qed.

Lemma sumZ_le f g l :
  (forall i, In i l -> f i <= g i) -> sumZ f l <= sumZ g l.
Proof.
  induction l as [|i l IH]; intros H; simpl; [lia|].
  pose proof (H i (or_introl eq_refl)).
  assert (sumZ f l <= sumZ g l)
    by (apply IH; intros j Hj; apply H; right; exact Hj).
  unfold sumZ in *. lia.
Qed.

(** One product seen alone: stocks [stor], production [prod] within the
    capacity [cap] the line pattern leaves it. *)
Section StockBound.

Variables (cons : list Z) (cap : Z -> Z) (init : Z) (stor prod : Z -> Z).

Hypothesis stor_init : stor 0 = init.
Hypothesis stor_week : forall i, 1 <= i <= 9 ->
  8 * item cons i <= 10 * stor (i - 1) /\
  stor i = stor (i - 1) + prod i - item cons i /\
  0 <= prod i <= cap i /\
  0 <= stor i.

Lemma need_le k : forall i,
  0 <= i -> i + Z.of_nat k = 9 -> need cons cap k i <= stor i.
Proof.
  induction k as [|k IH]; intros i Hi Hk.
  - cbn [need]. destruct (stor_week i) as (_ & _ & _ & H); lia.
  - cbn [need].
    destruct (stor_week (i + 1)) as (Hs & Hb & Hp & _); [lia|].
    replace (i + 1 - 1) with i in * by lia.
    apply safety_le in Hs.
    specialize (IH (i + 1)). lia.
Qed.

Lemma least_S n :
  least cons cap init (S n) =
  Z.max (need cons cap (9 - S n) (Z.of_nat (S n)))
        (least cons cap init n - item cons (Z.of_nat (S n))).
Proof. reflexivity. Qed.

Lemma least_le n :
  (n <= 9)%nat -> least cons cap init n <= stor (Z.of_nat n).
Proof.
  induction n as [|n IH]; intros Hn.
  - cbn [least Z.of_nat]. lia.
  - rewrite least_S.
    destruct (stor_week (Z.of_nat (S n))) as (_ & Hb & Hp & _); [lia|].
    replace (Z.of_nat (S n) - 1) with (Z.of_nat n) in * by lia.
    assert (need cons cap (9 - S n) (Z.of_nat (S n)) <= stor (Z.of_nat (S n)))
      by (apply need_le; lia).
    assert (least cons cap init n <= stor (Z.of_nat n)) by (apply IH; lia).
    lia.
Qed.

Lemma least_le_week i :
  In i weekZ -> least cons cap init (Z.to_nat i) <= stor i.
Proof.
  rewrite in_weekZ. intros Hi.
  replace (stor i) with (stor (Z.of_nat (Z.to_nat i)))
    by (f_equal; lia).
  apply least_le. lia.
Qed.

Lemma production_total :
  sumZ prod week = stor 9 - init + sumZ (item cons) week.
Proof.
  rewrite week_eq. unfold sumZ. cbn [fold_right].
  pose proof (stor_week 1 ltac:(lia)) as H1.
  pose proof (stor_week 2 ltac:(lia)) as H2.
  pose proof (stor_week 3 ltac:(lia)) as H3.
  pose proof (stor_week 4 ltac:(lia)) as H4.
  pose proof (stor_week 5 ltac:(lia)) as H5.
  pose proof (stor_week 6 ltac:(lia)) as H6.
  pose proof (stor_week 7 ltac:(lia)) as H7.
  pose proof (stor_week 8 ltac:(lia)) as H8.
  pose proof (stor_week 9 ltac:(lia)) as H9.
  change (1 - 1) with 0 in H1. change (2 - 1) with 1 in H2.
  change (3 - 1) with 2 in H3. change (4 - 1) with 3 in H4.
  change (5 - 1) with 4 in H5. change (6 - 1) with 5 in H6.
  change (7 - 1) with 6 in H7. change (8 - 1) with 7 in H8.
  change (9 - 1) with 8 in H9.
  lia.
Qed.

End StockBound.

Lemma line_bits s i :
  feasible mdl s -> In i weekZ -> line (bits_of s) i = s (deci i).
Proof.
  intros F Hi. destruct (feasible_constraints s F) as (H0 & _).
  rewrite weekZ_eq in Hi. cbn [In] in Hi. unfold line, bits_of.
  rewrite week_eq.
  destruct Hi as [<- | [<- | [<- | [<- | [<- | [<- | [<- | [<- | [<- | [<- | []]]]]]]]]]];
    [symmetry; exact H0 | reflexivity ..].
Qed.

Section PlanBound.

Variable s : assignment.
Hypothesis F : feasible mdl s.

Lemma stock_A i : 1 <= i <= 9 ->
  8 * item consA i <= 10 * s (storA (i - 1)) /\
  s (storA i) = s (storA (i - 1)) + s (prodA i) - item consA i /\
  0 <= s (prodA i) <= capA (line (bits_of s)) i /\
  0 <= s (storA i).
Proof.
  intros Hi. apply in_week in Hi.
  destruct (feasible_week_ok s i F Hi).
  unfold capA. rewrite (line_bits s i F (week_weekZ i Hi)).
  destruct (Z.eqb_spec (s (deci i)) 0); lia.
Qed.

Lemma stock_B i : 1 <= i <= 9 ->
  8 * item consB i <= 10 * s (storB (i - 1)) /\
  s (storB i) = s (storB (i - 1)) + s (prodB i) - item consB i /\
  0 <= s (prodB i) <= capB (line (bits_of s)) i /\
  0 <= s (storB i).
Proof.
  intros Hi. apply in_week in Hi.
  destruct (feasible_week_ok s i F Hi).
  unfold capB. rewrite (line_bits s i F (week_weekZ i Hi)).
  destruct (Z.eqb_spec (s (deci i)) 1); lia.
Qed.

Lemma switches_le i :
  In i week -> Z.abs ((line (bits_of s)) i - (line (bits_of s)) (i - 1)) <= s (chan i).
Proof.
  intros Hi. destruct (feasible_week_ok s i F Hi).
  rewrite (line_bits s i F (week_weekZ i Hi)).
  rewrite (line_bits s (i - 1) F (week_prev i Hi)). lia.
Qed.

Lemma bound_le : bound (line (bits_of s)) <= cost160 s.
Proof.
  destruct (feasible_constraints s F) as (_ & HA & HB & _).
  pose proof (production_total consA (capA (line (bits_of s))) 125 (fun i => s (storA i))
                (fun i => s (prodA i)) HA stock_A) as PA.
  pose proof (production_total consB (capB (line (bits_of s))) 143 (fun i => s (storB i))
                (fun i => s (prodB i)) HB stock_B) as PB.
  pose proof (least_le_week consA (capA (line (bits_of s))) 125 (fun i => s (storA i))
                (fun i => s (prodA i)) HA stock_A) as LA.
  pose proof (least_le_week consB (capB (line (bits_of s))) 143 (fun i => s (storB i))
                (fun i => s (prodB i)) HB stock_B) as LB.
  cbn beta in *.
  assert (LA9 : leastA (line (bits_of s)) 9 <= s (storA 9))
    by (apply LA, in_weekZ; lia).
  assert (LB9 : leastB (line (bits_of s)) 9 <= s (storB 9))
    by (apply LB, in_weekZ; lia).
  assert (SA : sumZ (leastA (line (bits_of s))) week <= sumZ (fun i => s (storA i)) week)
    by (apply sumZ_le; intros i Hi; apply LA, week_weekZ, Hi).
  assert (SB : sumZ (leastB (line (bits_of s))) week <= sumZ (fun i => s (storB i)) week)
    by (apply sumZ_le; intros i Hi; apply LB, week_weekZ, Hi).
  assert (SC : sumZ (fun i => Z.abs ((line (bits_of s)) i - (line (bits_of s)) (i - 1))) week
               <= sumZ (fun i => s (chan i)) week)
    by (apply sumZ_le; intros i Hi; apply switches_le, Hi).
  unfold bound, cost160. rewrite PA, PB. lia.
Qed.

Lemma servable_feasible : servable (line (bits_of s)) = true.
Proof.
  destruct (feasible_constraints s F) as (_ & HA & HB & _).
  unfold servable. apply andb_true_iff. split; apply Z.leb_le.
  - rewrite <- HA.
    apply (need_le consA (capA (line (bits_of s))) (fun i => s (storA i))
             (fun i => s (prodA i)) stock_A 9 0); lia.
  - rewrite <- HB.
    apply (need_le consB (capB (line (bits_of s))) (fun i => s (storB i))
             (fun i => s (prodB i)) stock_B 9 0); lia.
Qed.

End PlanBound.

Lemma bitlists_complete l :
  Forall (fun x => x = 0 \/ x = 1) l -> In l (bitlists (length l)).
Proof.
  induction 1 as [|x l Hx _ IH]; cbn [length bitlists].
  - left. reflexivity.
  - apply in_flat_map. exists l. split; [exact IH|].
    destruct Hx as [-> | ->]; simpl; tauto.
Qed.

Lemma bits_of_in s : feasible mdl s -> In (bits_of s) (bitlists 9).
Proof.
  intros F.
  change 9%nat with (length (bits_of s)).
  apply bitlists_complete. unfold bits_of.
  apply Forall_forall. intros x Hx.
  apply in_map_iff in Hx as (i & <- & Hi).
  apply (dom_deci s i F (week_weekZ i Hi)).
Qed.

(** No servable line pattern is cheaper than [plan]: all 512 are tried. *)
Lemma patterns_checked :
  forallb (fun l => negb (servable (line l))
                    || (cost160 plan <=? bound (line l)))
          (bitlists 9) = true.
Proof. vm_compute. reflexivity. Qed.

Lemma plan_optimal : optimal mdl plan.
Proof.
  split; [exact plan_feasible|].
  intros s F. apply (proj2 (no_worse_mdl _ _)).
  pose proof patterns_checked as H.
  rewrite forallb_forall in H. specialize (H _ (bits_of_in s F)).
  apply orb_prop in H as [H | H].
  - rewrite (servable_feasible s F) in H. discriminate H.
  - apply Z.leb_le in H.
    exact (Z.le_trans _ _ _ H (bound_le s F)).
Qed.

Lemma changeover_exact_plan :
  optimal mdl plan /\ In 4 week /\
  (plan (chan 4) = 1 <-> plan (deci 4) <> plan (deci (4 - 1))) /\
  (plan (chan 4) = 0 <-> plan (deci 4) = plan (deci (4 - 1))).
Proof.
  assert (H4 : In 4 week) by (apply in_week; lia).
  split; [exact plan_optimal|]. split; [exact H4|].
  apply (changeover_exact plan 4); [exact plan_optimal | exact H4].
Defined.

(** ** The feasible set of the built model, for any demand and big-M *)

Lemma Forall_declared (P : var * domain -> Prop) (family : Z -> var) d l :
  Forall P (map (fun i => (family i, d)) l) <->
  forall i, In i l -> P (family i, d).
Proof.
  rewrite Forall_forall. split.
  - intros H i Hi. apply H, (declared_in family d l i Hi).
  - intros H x Hx. apply in_map_iff in Hx as (i & <- & Hi). apply H, Hi.
Qed.

Lemma declarations_in_domains s :
  Forall (fun vd => in_domain (snd vd) (s (fst vd))) declarations
  <-> in_domains s.
Proof.
  unfold declarations, in_domains.
  rewrite !Forall_app, !Forall_declared. cbn [fst snd in_domain].
  split.
  - intros (HA & HB & HD & HC & HSA & HSB). split; intros i Hi.
    + repeat split; [apply HA | apply HB | apply HC]; exact Hi.
    + repeat split; [apply HD | apply HSA | apply HSB]; exact Hi.
  - intros [Hw Hz]. repeat split; intros i Hi;
      try (destruct (Hw i Hi) as (? & ? & ?); assumption);
      destruct (Hz i Hi) as (? & ? & ?); assumption.
Qed.

(** The constraint list of the built model says this and nothing more. *)
Lemma feasible_built_rel (cA cB : list Z) (bigM : Z) (s : assignment) :
  feasible (built cA cB bigM) s <->
  in_domains s /\
  s (deci 0) = 0 /\ s (storA 0) = 125 /\ s (storB 0) = 143 /\
  forall i, In i week -> week_rel cA cB bigM s i.
Proof.
  unfold feasible, built. cbn [vars conList app].
  rewrite declarations_in_domains.
  rewrite !Forall_cons_iff, Forall_flat_map, Forall_forall.
  cbn [holds eval int]. rewrite !eq_Z.
  split.
  - intros (Hd & H0 & HA & HB & Hw).
    split; [exact Hd|]. split; [exact H0|].
    split; [exact HA|]. split; [exact HB|].
    intros i Hi. apply week_constraints_rel, Hw, Hi.
  - intros (Hd & H0 & HA & HB & Hw).
    split; [exact Hd|]. split; [exact H0|].
    split; [exact HA|]. split; [exact HB|].
    intros i Hi. apply week_constraints_rel, Hw, Hi.
Qed.

Lemma plan_feasible_built : feasible (built consA consB 1000) plan.
Proof. rewrite <- mdl_built. exact plan_feasible. Qed.

(** X1.  An assignment is feasible for the script's model exactly when the
    line starts in state 0 with stocks 125 and 143 and every planned week
    satisfies its ten relations with all its variables in their domains:
    the 93 constraints and 57 domains say this and nothing more. *)
Theorem feasible_iff_week_ok (s : assignment) :
  feasible mdl s <->
  s (deci 0) = 0 /\ s (storA 0) = 125 /\ s (storB 0) = 143 /\
  forall i, In i week -> week_ok s i.
Proof.
  split.
  - intros F. destruct (feasible_constraints s F) as (H0 & HA & HB & _).
    split; [exact H0|]. split; [exact HA|]. split; [exact HB|].
    intros i Hi. apply feasible_week_ok; assumption.
  - intros (H0 & HA & HB & Hw).
    rewrite mdl_built. apply feasible_built_rel.
    split; [split|].
    + intros i Hi. destruct (Hw i Hi). repeat split; lia || assumption.
    + intros i Hi. apply in_weekZ in Hi.
      destruct (Z.eq_dec i 0) as [-> | Hn].
      * rewrite H0, HA, HB. repeat split; lia || (left; reflexivity).
      * assert (Hi' : In i week) by (apply in_week; lia).
        destruct (Hw i Hi'). repeat split; assumption.
    + split; [exact H0|]. split; [exact HA|]. split; [exact HB|].
      intros i Hi. apply week_constraints_rel, (week_constraints_Z s i Hi).
      destruct (Hw i Hi). repeat split; lia || assumption.
Qed.

(** ** The big-M constant *)

Lemma week_rel_bigM cA cB m m' s i :
  100 <= m -> 100 <= m' ->
  s (deci i) = 0 \/ s (deci i) = 1 ->
  week_rel cA cB m s i -> week_rel cA cB m' s i.
Proof.
  intros Hm Hm' Hd. unfold week_rel.
  intros (H1 & H2 & H3 & H4 & H5 & H6 & H7 & H8 & H9 & H10).
  destruct Hd as [E | E]; rewrite E in *; repeat split; lia || assumption.
Qed.

Lemma feasible_bigM cA cB m m' s :
  100 <= m -> 100 <= m' ->
  feasible (built cA cB m) s -> feasible (built cA cB m') s.
Proof.
  intros Hm Hm'. rewrite !feasible_built_rel.
  intros (Hd & H0 & HA & HB & Hw).
  split; [exact Hd|]. split; [exact H0|].
  split; [exact HA|]. split; [exact HB|].
  intros i Hi. apply (week_rel_bigM cA cB m m' s i Hm Hm'); [|apply Hw, Hi].
  apply (proj2 Hd), week_weekZ, Hi.
Qed.

(** X2.  Any big-M of at least 100, the larger capacity, gives the same
    feasible set, for every demand: the value 1000 of the script is not
    binding, and neither would 100 be. *)
Theorem bigM_not_binding (cA cB : list Z) (m m' : Z) (s : assignment) :
  100 <= m -> 100 <= m' ->
  (feasible (built cA cB m) s <-> feasible (built cA cB m') s).
Proof.
  intros Hm Hm'. split; apply feasible_bigM; assumption.
Qed.

Lemma bigM_not_binding_plan :
  100 <= 100 /\ 100 <= 1000 /\
  (feasible (built consA consB 100) plan
   <-> feasible (built consA consB 1000) plan).
Proof.
  split; [lia|]. split; [lia|].
  apply (bigM_not_binding consA consB 100 1000 plan); lia.
Defined.

(** X3.  Whatever integer stands in the place of the big-M literal, it
    acts as a capacity of its own: in every feasible assignment of the
    built model big-M is not negative and each week's production of either
    product is at most the smaller of its capacity and big-M.  A negative
    big-M leaves no feasible assignment. *)
Theorem bigM_caps_production (cA cB : list Z) (bigM : Z) (s : assignment)
        (i : Z) :
  feasible (built cA cB bigM) s -> In i week ->
  0 <= bigM /\
  s (prodA i) <= Z.min 100 bigM /\ s (prodB i) <= Z.min 80 bigM.
Proof.
  rewrite feasible_built_rel. intros ([Hw Hz] & _ & _ & _ & Hr) Hi.
  destruct (Hw i Hi) as (HA & HB & _).
  destruct (Hz i (week_weekZ i Hi)) as (Hd & _ & _).
  destruct (Hr i Hi) as (H1 & H2 & _ & _ & _ & _ & H7 & H8 & _).
  destruct Hd as [E | E]; rewrite E in *; lia.
Qed.

Lemma plan99_feasible : feasible (built consA consB 99) plan99.
Proof. apply feasibleb_feasible. vm_compute. reflexivity. Qed.

Lemma bigM_caps_production_plan :
  feasible (built consA consB 99) plan99 /\ In 2 week /\
  0 <= 99 /\
  plan99 (prodA 2) <= Z.min 100 99 /\ plan99 (prodB 2) <= Z.min 80 99.
Proof.
  assert (H2 : In 2 week) by (apply in_week; lia).
  split; [exact plan99_feasible|]. split; [exact H2|].
  apply (bigM_caps_production consA consB 99 plan99 2);
    [exact plan99_feasible | exact H2].
Defined.

(** ** The shape of the built model *)

(** X4.  For every demand and big-M, each variable a constraint or the
    objective mentions is declared (no index outside the index set of its
    family is ever written), and each declared variable occurs in a
    constraint, so that a solution gives it a value. *)
Theorem variables_declared_and_used (cA cB : list Z) (bigM : Z) :
  closed (built cA cB bigM) = true /\
  forallb (fun vd => used (built cA cB bigM) (fst vd))
          (vars (built cA cB bigM)) = true.
Proof. split; vm_compute; reflexivity. Qed.

(** X5.  For every demand and big-M the built model is linear: no
    constraint and no term of the objective multiplies two expressions
    that contain variables, and the only division is by a non-zero
    constant. *)
Theorem built_model_linear (cA cB : list Z) (bigM : Z) :
  linear_model (built cA cB bigM) = true.
Proof.
  unfold linear_model, built. cbn [conList totalCost].
  apply andb_true_iff. split; [|vm_compute; reflexivity].
  apply forallb_forall. intros c Hc. cbn [app] in Hc.
  destruct Hc as [<- | [<- | [<- | Hc]]]; try reflexivity.
  apply in_flat_map in Hc as (i & _ & Hc).
  unfold week_constraints in Hc. cbn [In] in Hc.
  repeat (destruct Hc as [<- | Hc]; [reflexivity|]). destruct Hc.
Qed.

(** ** Which demand entries the builder reads *)

Lemma week_body_ext cA cB cA' cB' bigM i :
  getitem cA i = getitem cA' i -> getitem cB i = getitem cB' i ->
  forall m, week_body cA cB bigM i m = week_body cA' cB' bigM i m.
Proof.
  intros EA EB m. unfold week_body. rewrite EA, EB. reflexivity.
Qed.

Lemma for_ext (f g : Z -> M unit) l :
  (forall i, In i l -> forall m, f i m = g i m) ->
  forall m, for_ l f m = for_ l g m.
Proof.
  induction l as [|i l IH]; intros H m; [reflexivity|].
  cbn [for_]. unfold bind. rewrite (H i (or_introl eq_refl) m).
  destruct (g i m) as [[u m']|e]; [|reflexivity].
  apply IH. intros j Hj. apply H. right. exact Hj.
Qed.

(** X6.  The builder reads the demand lists at weeks 1 to 9 only: with
    two pairs of demand lists that give the same result, value or
    IndexError, at each of these indices, it ends in the same way, with
    the same model or the same exception, whatever the lists hold at
    index 0 and after index 9. *)
Theorem demand_read_on_weeks_only (cA cB cA' cB' : list Z) (bigM : Z) :
  (forall i, In i week ->
     getitem cA i = getitem cA' i /\ getitem cB i = getitem cB' i) ->
  build cA cB bigM ConcreteModel = build cA' cB' bigM ConcreteModel.
Proof.
  intros H. unfold build, bind, Var, add, Objective, ConcreteModel.
  cbn [vars conList totalCost app].
  rewrite (for_ext (week_body cA cB bigM) (week_body cA' cB' bigM) week);
    [reflexivity|].
  intros i Hi. destruct (H i Hi) as [EA EB].
  apply week_body_ext; assumption.
Qed.

Lemma demand_read_on_weeks_only_other :
  other_consA <> consA /\ other_consB <> consB /\
  build consA consB 1000 ConcreteModel
  = build other_consA other_consB 1000 ConcreteModel.
Proof.
  split; [discriminate|]. split; [discriminate|].
  apply (demand_read_on_weeks_only consA consB other_consA other_consB 1000).
  intros i Hi. rewrite week_eq in Hi. cbn [In] in Hi.
  destruct Hi as [<- | [<- | [<- | [<- | [<- | [<- | [<- | [<- | [<- | []]]]]]]]]];
    split; reflexivity.
Defined.

(** ** More on feasible plans of the script's model *)

(** The facts of a week as linear inequalities, binary variables as
    bounds. *)
Lemma week_linear s i :
  feasible mdl s -> In i week ->
  (0 <= s (prodA i) <= 100 /\ 0 <= s (prodB i) <= 80) /\
  (8 * item consA i <= 10 * s (storA (i - 1)) /\
   8 * item consB i <= 10 * s (storB (i - 1))) /\
  (s (storA i) = s (storA (i - 1)) + s (prodA i) - item consA i /\
   s (storB i) = s (storB (i - 1)) + s (prodB i) - item consB i) /\
  (s (prodA i) <= 1000 * (1 - s (deci i)) /\
   s (prodB i) <= 1000 * s (deci i)) /\
  (s (deci i) - s (deci (i - 1)) <= s (chan i) /\
   s (deci (i - 1)) - s (deci i) <= s (chan i)) /\
  (0 <= s (deci i) <= 1 /\ 0 <= s (chan i) <= 1) /\
  (0 <= s (storA i) /\ 0 <= s (storB i)).
Proof.
  intros F Hi. destruct (feasible_week_ok s i F Hi).
  repeat split; lia || assumption.
Qed.

(** The facts of week [k] with the demand of the week computed. *)
Ltac week_facts s F k :=
  let Hk := fresh "Hk" in
  assert (Hk : In k week) by (apply in_week; lia);
  let W := fresh "W" in
  pose proof (week_linear s k F Hk) as W;
  let a := eval vm_compute in (item consA k) in
  let b := eval vm_compute in (item consB k) in
  let p := eval vm_compute in (k - 1) in
  change (item consA k) with a in W;
  change (item consB k) with b in W;
  change (k - 1) with p in W;
  clear Hk.

Ltac all_week_facts s F :=
  week_facts s F 1; week_facts s F 2; week_facts s F 3;
  week_facts s F 4; week_facts s F 5; week_facts s F 6;
  week_facts s F 7; week_facts s F 8; week_facts s F 9.

(** X7.  Stocks being integers, the stock carried into a week is at least
    0.8 times the week's demand rounded up to the next integer. *)
Theorem safety_stock_rounded (s : assignment) (i : Z) :
  feasible mdl s -> In i week ->
  Qceiling ((8 # 10) * inject_Z (item consA i)) <= s (storA (i - 1)) /\
  Qceiling ((8 # 10) * inject_Z (item consB i)) <= s (storB (i - 1)).
Proof.
  intros F Hi. destruct (feasible_week_ok s i F Hi).
  split.
  - rewrite <- (Qceiling_Z (s (storA (i - 1)))).
    apply Qceiling_resp_le, safety_Z. assumption.
  - rewrite <- (Qceiling_Z (s (storB (i - 1)))).
    apply Qceiling_resp_le, safety_Z. assumption.
Qed.

Lemma safety_stock_rounded_plan :
  feasible mdl plan /\ In 3 week /\
  36 <= plan (storA (3 - 1)) /\ 24 <= plan (storB (3 - 1)).
Proof.
  assert (H3 : In 3 week) by (apply in_week; lia).
  split; [exact plan_feasible|]. split; [exact H3|].
  exact (safety_stock_rounded plan 3 plan_feasible H3).
Defined.

(** X8.  In every feasible plan the total production of a product over
    the nine weeks is the demand the initial stock does not cover plus
    the stock left after week 9: 225 plus storA[9] machines A and 232
    plus storB[9] machines B, so at least 225 and 232. *)
Theorem total_production (s : assignment) :
  feasible mdl s ->
  total s prodA week = 225 + s (storA 9) /\
  total s prodB week = 232 + s (storB 9) /\
  225 <= total s prodA week /\ 232 <= total s prodB week.
Proof.
  intros F. unfold total. rewrite week_eq. unfold sumZ. cbn [fold_right].
  all_week_facts s F.
  destruct (feasible_constraints s F) as (_ & HA & HB & _).
  lia.
Qed.

Lemma total_production_plan :
  feasible mdl plan /\
  total plan prodA week = 225 + plan (storA 9) /\
  total plan prodB week = 232 + plan (storB 9) /\
  225 <= total plan prodA week /\ 232 <= total plan prodB week.
Proof.
  split; [exact plan_feasible|].
  exact (total_production plan plan_feasible).
Defined.

(** X9.  No feasible plan avoids a changeover: the line starts on A, and
    the stock of B that week 5 requires cannot be reached without
    producing B in one of the weeks 1 to 4. *)
Theorem changeover_needed (s : assignment) :
  feasible mdl s -> 1 <= total s chan week.
Proof.
  intros F. unfold total. rewrite week_eq. unfold sumZ. cbn [fold_right].
  all_week_facts s F.
  destruct (feasible_constraints s F) as (H0 & HA & HB & _).
  lia.
Qed.

Lemma changeover_needed_plan :
  feasible mdl plan /\ 1 <= total plan chan week.
Proof.
  split; [exact plan_feasible|].
  exact (changeover_needed plan plan_feasible).
Defined.

(** X10.  Feasibility alone settles the changeover variable in one
    direction only: a switch of the line forces it to 1, but it may be 1
    without a switch, as in the plan that flags week 1 while the line
    stays on A. *)
Theorem changeover_one_sided :
  (forall s i, feasible mdl s -> In i week ->
               s (deci i) <> s (deci (i - 1)) -> s (chan i) = 1) /\
  (feasible mdl plan_flagged /\
   plan_flagged (deci 1) = plan_flagged (deci (1 - 1)) /\
   plan_flagged (chan 1) = 1).
Proof.
  split.
  - intros s i F Hi Hd. destruct (feasible_week_ok s i F Hi). lia.
  - split; [|split; reflexivity].
    apply feasibleb_feasible. vm_compute. reflexivity.
Qed.

Lemma changeover_one_sided_plan :
  feasible mdl plan /\ In 4 week /\
  plan (deci 4) <> plan (deci (4 - 1)) /\ plan (chan 4) = 1.
Proof.
  assert (H4 : In 4 week) by (apply in_week; lia).
  assert (Hd : plan (deci 4) <> plan (deci (4 - 1))) by discriminate.
  split; [exact plan_feasible|]. split; [exact H4|]. split; [exact Hd|].
  exact (proj1 changeover_one_sided plan 4 plan_feasible H4 Hd).
Defined.

(** ** The optimum of the script's model *)

Lemma cost160_plan : cost160 plan = 19900137.
Proof. vm_compute. reflexivity. Qed.

Lemma optimal_cost160 s : optimal mdl s -> cost160 s = cost160 plan.
Proof.
  intros [F Hs]. destruct plan_optimal as [Fp Hp].
  pose proof (proj1 (no_worse_mdl _ _) (Hs plan Fp)).
  pose proof (proj1 (no_worse_mdl _ _) (Hp s F)).
  lia.
Qed.

(** X11.  The model of the script is feasible and has an optimum, and
    every optimal solution has the same cost, 124375.85625, as an exact
    number. *)
Theorem optimal_cost :
  (exists s, optimal mdl s) /\
  (forall s, optimal mdl s -> (cost mdl s == 12437585625 # 100000)%Q).
Proof.
  split; [exists plan; exact plan_optimal|].
  intros s Hs. rewrite cost_160, (optimal_cost160 s Hs), cost160_plan.
  reflexivity.
Qed.

Lemma optimal_cost_plan :
  optimal mdl plan /\ (cost mdl plan == 12437585625 # 100000)%Q.
Proof.
  split; [exact plan_optimal|].
  exact (proj2 optimal_cost plan plan_optimal).
Defined.

(** Every servable line pattern other than that of [plan] costs more,
    whatever the stocks: all 512 patterns are tried. *)
Lemma patterns_strict :
  forallb (fun l => negb (servable (line l))
                    || bits_eqb l plan_bits
                    || (cost160 plan <? bound (line l)))
          (bitlists 9) = true.
Proof. vm_compute. reflexivity. Qed.

Lemma bits_eqb_eq l l' : bits_eqb l l' = true -> l = l'.
Proof.
  unfold bits_eqb. destruct (list_eq_dec Z.eq_dec l l'); [trivial|discriminate].
Qed.

Lemma optimal_bits s : optimal mdl s -> bits_of s = plan_bits.
Proof.
  intros Hs. pose proof Hs as [F _].
  pose proof patterns_strict as H. rewrite forallb_forall in H.
  specialize (H _ (bits_of_in s F)).
  rewrite (servable_feasible s F) in H. cbn [negb orb] in H.
  apply orb_prop in H as [H | H]; [apply bits_eqb_eq, H|].
  apply Z.ltb_lt in H.
  pose proof (bound_le s F) as Hb.
  pose proof (optimal_cost160 s Hs) as Hc.
  exfalso. apply (Z.lt_irrefl (cost160 plan)).
  apply (Z.lt_le_trans _ _ _ H). rewrite <- Hc. exact Hb.
Qed.

Ltac least_fact L k :=
  let H := fresh "L" in
  assert (H := L k ltac:(apply in_weekZ; lia));
  match type of H with
  | ?x <= _ => let v := eval vm_compute in x in change x with v in H
  end.

Ltac plan_values :=
  repeat match goal with
         | |- context [plan ?v] =>
             let x := eval vm_compute in (plan v) in
             change (plan v) with x
         end.

(** An optimal solution has the values of [plan], family by family. *)
Lemma optimal_agrees (s : assignment) :
  optimal mdl s ->
  (forall i, In i week ->
     s (prodA i) = plan (prodA i) /\ s (prodB i) = plan (prodB i) /\
     s (chan i) = plan (chan i)) /\
  (forall i, In i weekZ ->
     s (deci i) = plan (deci i) /\ s (storA i) = plan (storA i) /\
     s (storB i) = plan (storB i)).
Proof.
  intros Hs. pose proof Hs as [F _].
  pose proof (optimal_bits s Hs) as Hb.
  pose proof (optimal_cost160 s Hs) as Hc. rewrite cost160_plan in Hc.
  destruct (feasible_constraints s F) as (H0 & HA & HB & _).
  pose proof (least_le_week consA (capA (line (bits_of s))) 125
                (fun i => s (storA i)) (fun i => s (prodA i))
                HA (stock_A s F)) as LA.
  pose proof (least_le_week consB (capB (line (bits_of s))) 143
                (fun i => s (storB i)) (fun i => s (prodB i))
                HB (stock_B s F)) as LB.
  rewrite Hb in LA, LB. cbn beta in LA, LB.
  least_fact LA 1; least_fact LA 2; least_fact LA 3; least_fact LA 4;
  least_fact LA 5; least_fact LA 6; least_fact LA 7; least_fact LA 8;
  least_fact LA 9.
  least_fact LB 1; least_fact LB 2; least_fact LB 3; least_fact LB 4;
  least_fact LB 5; least_fact LB 6; least_fact LB 7; least_fact LB 8;
  least_fact LB 9.
  clear LA LB.
  unfold bits_of, plan_bits in Hb. rewrite week_eq in Hb. cbn [map] in Hb.
  injection Hb as D1 D2 D3 D4 D5 D6 D7 D8 D9.
  all_week_facts s F.
  unfold cost160 in Hc. rewrite week_eq in Hc. unfold sumZ in Hc.
  cbn [fold_right] in Hc.
  split; intros i Hi.
  - rewrite week_eq in Hi. cbn [In] in Hi.
    destruct Hi as [<- | [<- | [<- | [<- | [<- | [<- | [<- | [<- | [<- | []]]]]]]]]];
      plan_values; lia.
  - rewrite weekZ_eq in Hi. cbn [In] in Hi.
    destruct Hi as [<- | [<- | [<- | [<- | [<- | [<- | [<- | [<- | [<- | [<- | []]]]]]]]]]];
      plan_values; lia.
Qed.

Lemma declared_cases v :
  declared mdl v = true ->
  exists i,
    (In i week /\ (v = prodA i \/ v = prodB i \/ v = chan i)) \/
    (In i weekZ /\ (v = deci i \/ v = storA i \/ v = storB i)).
Proof.
  unfold declared. rewrite mdl_built. unfold built. cbn [vars].
  intros H. apply existsb_exists in H as ([w d] & Hin & Hv).
  cbn [fst] in Hv. apply var_eqb_eq in Hv. subst w.
  unfold declarations in Hin. rewrite !in_app_iff, !in_map_iff in Hin.
  destruct Hin as [(i & E & Hi) | [(i & E & Hi) | [(i & E & Hi)
                  | [(i & E & Hi) | [(i & E & Hi) | (i & E & Hi)]]]]];
    injection E as <- _; exists i; tauto.
Qed.

(** X12.  The optimum is unique: every optimal solution of the script's
    model gives each declared variable the value it has in [plan].  In
    every optimal plan the line makes A in weeks 1 to 3 and B from week 4
    on, with the single changeover in week 4 and no stock left after
    week 9. *)
Theorem optimum_unique (s : assignment) (v : var) :
  optimal mdl s -> declared mdl v = true -> s v = plan v.
Proof.
  intros Hs Hv. destruct (optimal_agrees s Hs) as [Hw Hz].
  destruct (declared_cases v Hv) as (i & [[Hi Hc] | [Hi Hc]]).
  - destruct (Hw i Hi) as (HA & HB & HC).
    destruct Hc as [-> | [-> | ->]]; assumption.
  - destruct (Hz i Hi) as (HD & HA & HB).
    destruct Hc as [-> | [-> | ->]]; assumption.
Qed.

Lemma optimum_unique_plan :
  optimal mdl plan /\ declared mdl (storA 9) = true /\ plan (storA 9) = 0.
Proof.
  assert (Hd : declared mdl (storA 9) = true) by (vm_compute; reflexivity).
  split; [exact plan_optimal|]. split; [exact Hd|].
  exact (optimum_unique plan (storA 9) plan_optimal Hd).
Defined.

(** ** What the script prints *)













